(** * TheoremKB web front-end: resources and annotation menus

    A shallow embedding of
    - [src/web/src/resources.tsx]: the REST resources ([LayerResource],
      [AnnotationResource]), their primary keys, URL builders and the
      optimistic update of an annotation;
    - [src/web/src/index/Paper/menu/AnnotationModel.tsx] and its later
      revision (the [AnnotationClass] menu): label shortcuts, the highlighted
      button text and the creation of layers.

    Conventions.  A JavaScript string is a [string] of ASCII characters, which
    is what ids, labels and parameter names are made of here: on such text
    one [ascii] is at once what [for (let c of s)] yields, the unit that
    strings are compared by, and the byte that a URL encodes.  An object
    whose order of keys matters is an association list in the order in which
    the engine enumerates its own keys; an object used as a plain record of
    values is a [gmap].  A function that may [throw] returns a [completion]. *)

From Stdlib Require Import Ascii String NArith.
From stdpp Require Import base option list strings sorting gmap.

(** ** JavaScript basics *)

Module Js.

(** Outcome of a call: a returned value or [throw new Error(msg)]. *)
Inductive completion (A : Type) : Type :=
| Return (a : A)
| Throw (msg : string).
Global Arguments Return {A} a.
Global Arguments Throw {A} msg.

(** An object as the list of its own properties, in enumeration order. *)
Definition properties (K V : Type) : Type := list (K * V).

(** An object with string properties. *)
Definition object : Type := properties string string.

(** [o[k]]: [None] is [undefined]. *)
Fixpoint get {K V : Type} `{EqDecision K} (k : K) (o : properties K V) : option V :=
  match o with
  | [] => None
  | (k', v) :: o' => if decide (k' = k) then Some v else get k o'
  end.

(** [Object.keys(o)]. *)
Definition keys {K V : Type} (o : properties K V) : list K := o.*1.

(** String conversion of a property inside a template literal or a [+]. *)
Definition to_str (v : option string) : string := default "undefined" v.

(** The rest of a destructuring [const { a, b, ...rest } = o]. *)
Definition rest_without (named : list string) (o : object) : object :=
  filter (λ kv, kv.1 ∉ named) o.

(** *** URLSearchParams *)

Definition hex_digit (n : N) : ascii :=
  ascii_of_N (if (n <? 10)%N then 48 + n else 55 + n).

(** Bytes that the form-urlencoded serializer leaves as they are:
    [*], [-], [.], [_], digits and letters.  A space becomes [+] and any
    other byte a percent sign and two upper-case hexadecimal digits. *)
Definition urlencode_keeps (c : ascii) : bool :=
  let n := N_of_ascii c in
  ((48 <=? n) && (n <=? 57) || (65 <=? n) && (n <=? 90) ||
   (97 <=? n) && (n <=? 122) ||
   (n =? 42) || (n =? 45) || (n =? 46) || (n =? 95))%N.

Definition urlencode_byte (c : ascii) : string :=
  if urlencode_keeps c then String c ""
  else if decide (c = " "%char) then "+"
  else
    let n := N_of_ascii c in
    String "%" (String (hex_digit (n / 16)) (String (hex_digit (n mod 16)) "")).

Fixpoint urlencode (s : string) : string :=
  match s with
  | "" => ""
  | String c s' => urlencode_byte c +:+ urlencode s'
  end.

(** [new URLSearchParams(record)]: one pair per own key, in key order. *)
Definition URLSearchParams : Type := list (string * string).
Definition URLSearchParams_new (o : object) : URLSearchParams := o.

(** [params.sort()]: a stable sort of the pairs by name.  The pairs are
    inserted from the last to the first, each one in front of the pairs
    whose name is not smaller, so pairs of equal name keep their order. *)
Fixpoint sort_insert (kv : string * string) (l : URLSearchParams) : URLSearchParams :=
  match l with
  | [] => [kv]
  | kv' :: l' =>
      if String.ltb kv'.1 kv.1 then kv' :: sort_insert kv l' else kv :: l
  end.

Definition sort (l : URLSearchParams) : URLSearchParams :=
  foldr sort_insert [] l.

(** [params.toString()]. *)
Definition serialize_pair (kv : string * string) : string :=
  urlencode kv.1 +:+ "=" +:+ urlencode kv.2.

Definition toString (l : URLSearchParams) : string :=
  String.concat "&" (serialize_pair <$> l).

End Js.

Import Js.

(** ** resources.tsx *)

Module LayerResource.

Record t : Type := mk
  { id : string; paperId : string; kind : string; name : string;
    training : bool }.

(** The body of [pk()], on a receiver whose two properties may be missing. *)
Definition pk_on (this_paperId this_id : option string) : string :=
  to_str this_paperId +:+ "-" +:+ to_str this_id.

Definition pk (this : t) : string :=
  pk_on (Some (paperId this)) (Some (id this)).

Definition key : string := "LayerResource".

(** The static [pk(params)] inherited from rest-hooks' [Resource]: it runs the
    instance method with [params] as receiver; its result type is
    [string | undefined]. *)
Definition static_pk (params : object) : option string :=
  Some (pk_on (get "paperId" params) (get "id" params)).

Definition url (urlParams : option object) : completion string :=
  match urlParams with
  | Some p =>
      match static_pk p with
      | Some _ =>
          Return ("http://localhost:8000/papers/" +:+ to_str (get "paperId" p)
                  +:+ "/layers/" +:+ to_str (get "id" p))
      | None => Throw "Layers require paperId to retrieve"
      end
  | None => Throw "Layers require paperId to retrieve"
  end.

Definition listUrl (searchParams : option object) : completion string :=
  match searchParams with
  | Some p =>
      if bool_decide (length (keys p) ≠ 0) then
        let paperId := get "paperId" p in
        let realSearchParams := rest_without ["paperId"] p in
        let params := sort (URLSearchParams_new realSearchParams) in
        Return ("http://localhost:8000/papers/" +:+ to_str paperId
                +:+ "/layers/?" +:+ toString params)
      else Throw "Layers require paperId to retrieve"
  | None => Throw "Layers require paperId to retrieve"
  end.

End LayerResource.

Module AnnotationResource.

Record t {number : Type} : Type := mk
  { id : string; paperId : string; layerId : string;
    min_h : number; max_h : number; min_v : number; max_v : number;
    page_num : number; label : string }.
Global Arguments t : clear implicits.

Definition pk_on (this_paperId this_layerId this_id : option string) : string :=
  to_str this_paperId +:+ "-" +:+ to_str this_layerId +:+ "-" +:+ to_str this_id.

Definition pk {number} (this : t number) : string :=
  pk_on (Some (paperId this)) (Some (layerId this)) (Some (id this)).

Definition key : string := "AnnotationResource".

(** See [LayerResource.static_pk]. *)
Definition static_pk (params : object) : option string :=
  Some (pk_on (get "paperId" params) (get "layerId" params) (get "id" params)).

Definition url (urlParams : option object) : completion string :=
  match urlParams with
  | Some p =>
      match static_pk p with
      | Some _ =>
          Return ("http://localhost:8000/papers/" +:+ to_str (get "paperId" p)
                  +:+ "/layers/" +:+ to_str (get "layerId" p)
                  +:+ "/bbx/" +:+ to_str (get "id" p))
      | None => Throw "Layers require paperId and layerId to retrieve"
      end
  | None => Throw "Layers require paperId and layerId to retrieve"
  end.

Definition listUrl (searchParams : option object) : completion string :=
  match searchParams with
  | Some p =>
      if bool_decide (length (keys p) ≠ 0) then
        let paperId := get "paperId" p in
        let layerId := get "layerId" p in
        let realSearchParams := rest_without ["paperId"; "layerId"] p in
        let params := sort (URLSearchParams_new realSearchParams) in
        Return ("http://localhost:8000/papers/" +:+ to_str paperId
                +:+ "/layers/" +:+ to_str layerId
                +:+ "/bbx/?" +:+ toString params)
      else Throw "Layers require paperId and layerId to retrieve"
  | None => Throw "Layers require paperId and layerId to retrieve"
  end.

(** [optimisticUpdate: (params, body) => ({ id: params.id, ...body })].
    The values of the record are kept abstract; [undefined] is what reading
    a missing property gives. *)
Section optimistic.
Context {value : Type} (undefined : value).

Definition read (k : string) (o : gmap string value) : value :=
  default undefined (o !! k).

Definition optimisticUpdate (params body : gmap string value)
  : gmap string value :=
  body ∪ {[ "id" := read "id" params ]}.
End optimistic.

End AnnotationResource.

(** ** Label shortcuts: [ModelHeaderSelectTag] / [ClassHeaderSelectTag]

    The [reduce] that derives the shortcuts is the same text in both
    revisions of the menu; [highlightShortcut] exists in the later one. *)

Module SelectTag.

(** The accumulator [{ [c: string]: string }]: keys are one-character
    strings, listed in enumeration order. *)
Definition shortcut_map : Type := properties ascii string.

(** [c in sc]. *)
Definition has_key (c : ascii) (sc : shortcut_map) : bool :=
  bool_decide (c ∈ keys sc).

(** Own keys are enumerated with the array indices first, in ascending
    order, then the other keys in creation order.  Among one-character keys
    the array indices are the digits. *)
Definition is_index_key (c : ascii) : bool :=
  ((48 <=? N_of_ascii c) && (N_of_ascii c <=? 57))%N.

Definition enumerated_before (c k : ascii) : bool :=
  is_index_key c &&
  (negb (is_index_key k) || (N_of_ascii c <? N_of_ascii k)%N).

Fixpoint replace_value (c : ascii) (v : string) (sc : shortcut_map) : shortcut_map :=
  match sc with
  | [] => []
  | (k, w) :: sc' =>
      if decide (k = c) then (k, v) :: sc' else (k, w) :: replace_value c v sc'
  end.

Fixpoint place_new (c : ascii) (v : string) (sc : shortcut_map) : shortcut_map :=
  match sc with
  | [] => [(c, v)]
  | (k, w) :: sc' =>
      if enumerated_before c k then (c, v) :: sc else (k, w) :: place_new c v sc'
  end.

(** [{ ...sc, [c]: label }]. *)
Definition spread_set (sc : shortcut_map) (c : ascii) (label : string) : shortcut_map :=
  if has_key c sc then replace_value c label sc else place_new c label sc.

(** The [for (let c of label)] loop of the reducer, from the characters
    [todo] still to visit: the new accumulator of the early [return], or
    [None] when the loop runs to its end. *)
Fixpoint scan (sc : shortcut_map) (label todo : string) : option shortcut_map :=
  match todo with
  | "" => None
  | String c todo' =>
      if negb (has_key c sc) then Some (spread_set sc c label)
      else scan sc label todo'
  end.

(** The console: the argument lists of the [console.log] calls so far. *)
Definition console : Type := list (list string).

(** The callback given to [reduce], with the console threaded through. *)
Definition reducer (acc : shortcut_map * console) (label : string)
  : shortcut_map * console :=
  match scan acc.1 label label with
  | Some sc' => (sc', acc.2)
  | None => (acc.1, acc.2 ++ [["Warning: unable to deduce shortcut for "; label]])
  end.

(** [labels.reduce(callback, {})], started on a given accumulator. *)
Definition reduce_from (acc : shortcut_map * console) (labels : list string)
  : shortcut_map * console :=
  foldl reducer acc labels.

Definition derive (labels : list string) : shortcut_map * console :=
  reduce_from ([], []) labels.

Definition shortcuts (labels : list string) : shortcut_map := (derive labels).1.
Definition warnings (labels : list string) : console := (derive labels).2.

(** lodash's [_.findKey(object, predicate)]: the first key, in enumeration
    order, whose value satisfies the predicate; [None] is [undefined]. *)
Fixpoint findKey (sc : shortcut_map) (predicate : string → bool) : option ascii :=
  match sc with
  | [] => None
  | (k, v) :: sc' => if predicate v then Some k else findKey sc' predicate
  end.

(** What [highlightShortcut] pushes: a plain character, or the element
    [<b key={c}>[{c}]</b>] with its three text children. *)
Inductive node : Type :=
| Plain (c : ascii)
| Bold (key : ascii) (children : list string).

Definition bracketed (c : ascii) : node :=
  Bold c ["["; String c ""; "]"].

(** The loop of [highlightShortcut]; [shortcut] is the local variable,
    [None] standing for both [undefined] and [null]. *)
Fixpoint highlight_loop (shortcut : option ascii) (todo : string) : list node :=
  match todo with
  | "" => []
  | String c todo' =>
      if decide (shortcut = Some c)
      then bracketed c :: highlight_loop None todo'
      else Plain c :: highlight_loop shortcut todo'
  end.

Definition highlightShortcut (sc : shortcut_map) (value : string) : list node :=
  highlight_loop (findKey sc (λ v, bool_decide (v = value))) value.

(** The buttons of the [nav]: one per label, with its children. *)
Definition render (labels : list string) : list (string * list node) :=
  (λ value, ("label-" +:+ value, highlightShortcut (shortcuts labels) value))
    <$> labels.

End SelectTag.

(** ** Creation of layers *)

Module CreateLayer.

(** What a failed request rejects with.  [e.response.json()] gives the parsed
    body; [None] is a body that does not parse, and [NoResponse] an error
    without a [response] property. *)
Inductive error {val : Type} : Type :=
| NoResponse
| Response (json : option (gmap string val)).
Global Arguments error : clear implicits.

(** What a promise of the handlers is rejected with: the error of the
    request, or an exception raised inside the [.catch] callback. *)
Inductive reason {val : Type} : Type :=
| RequestError (e : error val)
| TypeError
| SyntaxError.
Global Arguments reason : clear implicits.

(** How the request ends: with the created layer (the entry that the cache
    hands to the updater, and the [id] of the returned record), or rejected. *)
Inductive outcome {val : Type} : Type :=
| Created (newAnnotation : string) (result_id : string)
| Failed (e : error val).
Global Arguments outcome : clear implicits.

(** The select element that triggers a creation from an extractor. *)
Record select : Type := mk_select { value : string; disabled : bool }.

(** The body of the POST; [owner] is the property named [kind] in
    AnnotationModel.tsx and [class] in its later revision. *)
Record body : Type := mk_body
  { owner : string; training : bool; from : option string; name : string }.

Inductive event {val : Type} : Type :=
| ConsoleLog (paperId : string)
| Post (paperId : string) (b : body)
| OnNewLayer (newAnnotation : string)
| OnDisplayChange (id : string) (shown : bool)
| AlertError (message : val).
Global Arguments event : clear implicits.

(** The third element of the update triple: the new list of the cache. *)
Definition updater (newAnnotation : string) (currentAnnotations : option (list string))
  : list string :=
  default [] currentAnnotations ++ [newAnnotation].

Section handlers.
Context {val : Type} (undefined : val).

(** The cached list of layers of the paper and the effects so far. *)
Record world : Type := mk_world
  { cache : option (list string); trace : list (event val) }.

Definition emit (e : event val) (w : world) : world :=
  mk_world (cache w) (trace w ++ [e]).

(** An awaited call: finished, or rejected with a reason. *)
Definition promise : Type := world * option (reason val).

(** [createAnnotationLayer] of the later revision (the class menu). *)
Definition createAnnotationLayer_class (paperId classId : string)
    (name : string) (from : option string)
    (o : outcome val) (w : world) : promise :=
  let w := emit (Post paperId (mk_body classId false from name)) w in
  match o with
  | Created newAnnotation _ =>
      let w := emit (OnNewLayer newAnnotation) w in
      (mk_world (Some (updater newAnnotation (cache w))) (trace w), None)
  | Failed e => (w, Some (RequestError e))
  end.

(** [createAnnotationLayer] of AnnotationModel.tsx. *)
Definition createAnnotationLayer_model (paper_id model_id : string)
    (name : string) (from : option string)
    (o : outcome val) (w : world) : promise :=
  let w := emit (ConsoleLog paper_id) w in
  let w := emit (Post paper_id (mk_body model_id false from name)) w in
  match o with
  | Created newAnnotation result_id =>
      let w := mk_world (Some (updater newAnnotation (cache w))) (trace w) in
      (emit (OnDisplayChange result_id true) w, None)
  | Failed e => (w, Some (RequestError e))
  end.

Section menu.
(** Either of the two, applied to the props of the component. *)
Variable createAnnotationLayer :
  string → option string → outcome val → world → promise.

(** [onClick] of the [+new] / [+layer] button. *)
Definition button_onClick : outcome val → world → promise :=
  createAnnotationLayer "Untitled" None.

(** The [.catch] callback: it shows the message of the parsed body, and is
    itself rejected when there is no response or no JSON to read. *)
Definition on_rejected (r : reason val) (w : world) : promise :=
  match r with
  | RequestError (Response (Some json)) =>
      (emit (AlertError (default undefined (json !! "message"))) w, None)
  | RequestError (Response None) => (w, Some SyntaxError)
  | RequestError NoResponse => (w, Some TypeError)
  | _ => (w, Some TypeError)
  end.

(** [onChange] of the select: the element, the world and whether the
    handler ran to its end ([None]) or was left by a rejection. *)
Definition select_onChange (target : select) (o : outcome val) (w : world)
  : select * world * option (reason val) :=
  if bool_decide (value target ≠ "") then
    let target := mk_select (value target) true in
    let '(w, r) :=
      createAnnotationLayer ("from." +:+ value target) (Some (value target)) o w in
    let '(w, r) :=
      match r with
      | None => (w, None)
      | Some e => on_rejected e w
      end in
    match r with
    | None => (mk_select "" false, w, None)
    | Some e => (target, w, Some e)
    end
  else (target, w, None).
End menu.
End handlers.

End CreateLayer.

(** ** Hotkeys of the label shortcuts *)

Module Hotkeys.

(** [c.toUpperCase()] on an ASCII character: the letters a to z become A to
    Z and every other character of ASCII is left as it is.  Bytes from 128
    on stand for no character here; what is proved of upper-cased keys is
    stated for labels of ASCII characters. *)
Definition toUpperCase (c : ascii) : ascii :=
  let n := N_of_ascii c in
  if ((97 <=? n) && (n <=? 122))%N then ascii_of_N (n - 32) else c.

(** A call of [props.onSelectTag]; the argument [None] is [undefined]. *)
Inductive call : Type :=
| OnSelectTag (tag : option string).

(** One [useHotkeys(keys, callback, [])]: the key and the calls that the
    callback makes when it is fired. *)
Definition registration : Type := string * list call.

(** The loop [for (let c in shortcuts)] of the later revision. *)
Definition useHotkeys_class (sc : SelectTag.shortcut_map) : list registration :=
  (λ c, (String (toUpperCase c) "", [OnSelectTag (get c sc)])) <$> keys sc.

(** The same loop in AnnotationModel.tsx: the callback tests
    [props.selectedLayer] first. *)
Definition useHotkeys_model (selectedLayer : bool) (sc : SelectTag.shortcut_map)
  : list registration :=
  (λ c, (String (toUpperCase c) "",
         if selectedLayer then [OnSelectTag (get c sc)] else [])) <$> keys sc.

End Hotkeys.

(** ** The select of the extractors *)

Module ExtractorSelect.

(** Modelled from the spec: the declaration of the extractor resource is not
    among the sources; an extractor is a model that generates the
    annotations of a new layer, and these are the fields that the menu
    reads. *)
Record extractor : Type := mk
  { id : string; trainable : bool; trained : bool }.


(** An [option] element: its [value] and its text. *)
Definition option_element : Type := string * string.

(** The children of the select: the placeholder, then one option for each
    extractor of the list. *)
Definition options (placeholder : string) (extractorList : list extractor)
  : list option_element :=
  ("", placeholder) :: ((λ ex, (id ex, id ex)) <$> extractorList).


(** The select of AnnotationModel.tsx, always rendered. *)
Definition select_model (extractors_list : list extractor) : list option_element :=
  options "apply model" extractors_list.

End ExtractorSelect.

(** ** The menu of a class: [AnnotationClass] / [AnnotationModel] *)

Module AnnotationMenu.

Section component.
(** The layers of the list; the component reads their [id] only. *)
Context {layer : Type} (layer_id : layer → string).

Record props : Type := mk_props
  { paperId : string; annotations : list layer; display : gmap string bool;
    selectedLayer : option string }.

(** The props given to one [AnnotationEntry]. *)
Record entry : Type := mk_entry
  { key : string; entry_layer : string; entry_id : string; selected : bool;
    new : bool; entry_display : option bool }.

Inductive callback : Type :=
| OnSelectLayer (id : option string)
| OnDisplayChange (id : string) (shown : bool).

(** [props.annotations.map((x) => x.id).includes(props.selectedLayer)]. *)
Definition selectedLayer_included (p : props) : bool :=
  match selectedLayer p with
  | Some s => bool_decide (s ∈ layer_id <$> annotations p)
  | None => false
  end.

(** [onNewLayer]: the call it makes and the new state [newLayer]. *)
Definition onNewLayer (id : string) : list callback * option string :=
  ([OnDisplayChange id true], Some id).

(** The entries, for the state [newLayer] ([None] is [null]). *)
Definition entries (p : props) (newLayer : option string) : list entry :=
  (λ l, mk_entry (layer_id l) (layer_id l) (paperId p)
          (bool_decide (selectedLayer p = Some (layer_id l)))
          (bool_decide (newLayer = Some (layer_id l)))
          (display p !! layer_id l)) <$> annotations p.

(** [onSelect] and [onDisplayChange] of the entry of a layer. *)
Definition entry_onSelect (l : layer) (v : bool) : callback :=
  if v then OnSelectLayer (Some (layer_id l)) else OnSelectLayer None.

Definition entry_onDisplayChange (l : layer) (value : bool) : callback :=
  OnDisplayChange (layer_id l) value.

(** Whether the buttons of the labels are rendered (later revision). *)
Definition select_tag_rendered (p : props) : bool := selectedLayer_included p.
End component.

End AnnotationMenu.

Import SelectTag CreateLayer.

(** ** Vocabulary of the properties *)

(** The order in which [sort] leaves the pairs: by name. *)
Definition by_name : relation (string * string) := λ a b, String.le a.1 b.1.

(** The characters of a label, in the order of the loop. *)
Abbreviation chars := list_ascii_of_string.

(** The character at which the loop of the reducer returns, if any. *)
Fixpoint first_unclaimed (sc : shortcut_map) (todo : string) : option ascii :=
  match todo with
  | "" => None
  | String c todo' => if has_key c sc then first_unclaimed sc todo' else Some c
  end.

(** The value of a hexadecimal digit, and the reading of an encoded string
    back into its bytes: [+] is a space, a percent sign with two digits is
    the byte they denote. *)
Definition hex_value (c : ascii) : N :=
  let n := N_of_ascii c in
  (if n <? 58 then n - 48 else n - 55)%N.

Fixpoint urldecode (s : string) : string :=
  match s with
  | "" => ""
  | String c s' =>
      if decide (c = "+"%char) then String " " (urldecode s')
      else if decide (c = "%"%char) then
        match s' with
        | String h (String l s'') =>
            String (ascii_of_N (16 * hex_value h + hex_value l)) (urldecode s'')
        | _ => String c (urldecode s')
        end
      else String c (urldecode s')
  end.


(** The characters of ASCII proper, the range in which [toUpperCase] is what
    [Hotkeys.toUpperCase] computes. *)
Definition is_seven_bit (c : ascii) : bool := (N_of_ascii c <? 128)%N.

(** Upper-case letters, and the lower case of a character. *)
Definition is_upper (c : ascii) : bool :=
  ((65 <=? N_of_ascii c) && (N_of_ascii c <=? 90))%N.

Definition lower_of (c : ascii) : ascii :=
  if is_upper c then ascii_of_N (N_of_ascii c + 32) else c.



(** The identifiers that a run of requests creates, in order. *)
Definition created {val : Type} (os : list (outcome val)) : list string :=
  omap (λ o, match o with Created newAnnotation _ => Some newAnnotation | Failed _ => None end) os.

(** Clicks on the button, one for each request as it ends. *)
Definition clicks {val : Type}
    (createAnnotationLayer : string → option string → outcome val → world → promise)
    (os : list (outcome val)) (w : world) : world :=
  foldl (λ w o, (button_onClick createAnnotationLayer o w).1) w os.

(** What the two versions of [createAnnotationLayer] have in common: past
    effects stay, a created layer goes to the end of the cache, a rejected
    request leaves the cache alone. *)
Definition appends_only {val : Type}
    (create : string → option string → outcome val → world → promise) : Prop :=
  ∀ name from o w,
    trace w `prefix_of` trace (create name from o w).1 ∧
    match o with
    | Created newAnnotation _ =>
        cache (create name from o w).1
        = Some (default [] (cache w) ++ [newAnnotation]) ∧
        (create name from o w).2 = None
    | Failed e =>
        cache (create name from o w).1 = cache w ∧
        (create name from o w).2 = Some (RequestError e)
    end.

(** * Properties *)

(** Closes a decidable goal about concrete data by evaluating its decision. *)
Ltac by_evaluation := apply (bool_decide_unpack _); vm_compute; reflexivity.

(** ** Objects and query strings *)

Section object_facts.
Context {K V : Type} `{EqDecision K}.
Implicit Types (o q : properties K V) (k : K) (v : V).

Lemma get_Some_elem_of k v o : get k o = Some v → (k, v) ∈ o.
Proof.
  induction o as [|[k' v'] o IH]; simpl; [done|].
  case_decide; intros ?; simplify_eq; [left | right; auto].
Qed.

Lemma get_None_not_key k o : get k o = None ↔ k ∉ keys o.
Proof.
  unfold keys. induction o as [|[k' v'] o IH]; simpl.
  - split; [intros _; apply not_elem_of_nil | done].
  - rewrite not_elem_of_cons. case_decide as Hk; subst.
    + split; [done|]. by intros [? _].
    + rewrite IH. split; [by intros ?; split; [intros ->|]|by intros [_ ?]].
Qed.

Lemma elem_of_get k v o : NoDup (keys o) → (k, v) ∈ o → get k o = Some v.
Proof.
  unfold keys. induction o as [|[k' v'] o IH]; simpl; intros Hnd Hin.
  - by apply elem_of_nil in Hin.
  - apply NoDup_cons in Hnd as [Hk' Hnd].
    apply elem_of_cons in Hin as [?|Hin]; simplify_eq.
    + by rewrite decide_True.
    + rewrite decide_False; [auto|]. intros ->. apply Hk'.
      apply list_elem_of_fmap. by exists (k, v).
Qed.

(** Reading a property does not depend on the order of the keys. *)
Lemma get_Permutation k o q : NoDup (keys o) → o ≡ₚ q → get k o = get k q.
Proof.
  intros Hnd Hp.
  assert (NoDup (keys q)) as Hnd' by (unfold keys in *; by rewrite <-Hp).
  destruct (get k o) as [v|] eqn:Ho.
  - symmetry. apply elem_of_get; [done|]. rewrite <-Hp. by apply get_Some_elem_of.
  - symmetry. apply get_None_not_key. apply get_None_not_key in Ho.
    unfold keys in *. by rewrite <-Hp.
Qed.

Lemma same_key_same_pair o (a b : K * V) :
  NoDup (keys o) → a ∈ o → b ∈ o → a.1 = b.1 → a = b.
Proof.
  destruct a as [k v], b as [k' v']; simpl. intros Hnd Ha Hb <-.
  apply (elem_of_get _ _ _ Hnd) in Ha, Hb. congruence.
Qed.

Lemma rest_without_keys_NoDup named (o : object) :
  NoDup (keys o) → NoDup (keys (rest_without named o)).
Proof.
  unfold keys, rest_without. intros Hnd.
  apply (sublist_NoDup _ (o.*1)); [done|].
  apply fmap_sublist, sublist_filter.
Qed.
End object_facts.

Section sort_facts.
Implicit Types (l : URLSearchParams) (a b : string * string).

#[local] Instance by_name_trans : Transitive by_name.
Proof. intros a b c. unfold by_name. apply transitivity. Qed.

Lemma ltb_le s1 s2 : String.ltb s1 s2 = true → String.le s1 s2.
Proof.
  unfold String.ltb, String.le, String.leb.
  destruct (String.compare s1 s2); simpl; done.
Qed.

Lemma not_ltb_le s1 s2 : String.ltb s1 s2 = false → String.le s2 s1.
Proof.
  unfold String.ltb, String.le, String.leb.
  rewrite (String.compare_antisym s2 s1).
  destruct (String.compare s1 s2); simpl; done.
Qed.

Lemma sort_insert_Permutation a l : sort_insert a l ≡ₚ a :: l.
Proof.
  induction l as [|b l IH]; simpl; [done|].
  destruct (String.ltb b.1 a.1); [|done].
  rewrite IH. apply Permutation_swap.
Qed.

Lemma sort_Permutation l : sort l ≡ₚ l.
Proof.
  induction l as [|a l IH]; simpl; [done|].
  by rewrite sort_insert_Permutation, IH.
Qed.

Lemma sort_insert_Sorted a l : Sorted by_name l → Sorted by_name (sort_insert a l).
Proof.
  induction 1 as [|b l Hl IH Hhd]; simpl.
  - by repeat constructor.
  - destruct (String.ltb b.1 a.1) eqn:Hba.
    + constructor; [done|].
      destruct Hhd as [|c l Hbc]; simpl.
      * constructor. by apply ltb_le.
      * destruct (String.ltb c.1 a.1); constructor; [done|by apply ltb_le].
    + constructor; [by constructor|]. constructor. by apply not_ltb_le.
Qed.

Lemma sort_Sorted l : Sorted by_name (sort l).
Proof.
  induction l as [|a l IH]; simpl; [constructor|by apply sort_insert_Sorted].
Qed.

Lemma sort_StronglySorted l : StronglySorted by_name (sort l).
Proof. apply Sorted_StronglySorted; [apply _|apply sort_Sorted]. Qed.

(** Two enumerations of the same entries sort to the same list. *)
Lemma sort_Permutation_eq l1 l2 :
  NoDup (keys l1) → l1 ≡ₚ l2 → sort l1 = sort l2.
Proof.
  intros Hnd Hp.
  apply (StronglySorted_unique_strong by_name);
    [|apply sort_StronglySorted..|by rewrite !sort_Permutation].
  intros a b Ha Hb Hab Hba.
  apply (same_key_same_pair l1); [done|by rewrite <-(sort_Permutation l1)| |].
  - rewrite Hp. by rewrite <-(sort_Permutation l2).
  - by apply (anti_symm String.le).
Qed.
End sort_facts.

(** ** Primary keys and URLs *)

(** C3: a layer with paperId "P1" and id "L1" has primary key "P1-L1", an
    annotation with paperId "P1", layerId "L1" and id "A1" has primary key
    "P1-L1-A1"; in general [LayerResource.pk] is paperId, "-", id and
    [AnnotationResource.pk] is paperId, "-", layerId, "-", id. *)
Theorem pk_composition :
  (∀ kind name training,
     LayerResource.pk (LayerResource.mk "L1" "P1" kind name training) = "P1-L1") ∧
  (∀ (number : Type) (min_h max_h min_v max_v page_num : number) label,
     AnnotationResource.pk
       (AnnotationResource.mk number "A1" "P1" "L1"
          min_h max_h min_v max_v page_num label) = "P1-L1-A1") ∧
  (∀ r : LayerResource.t,
     LayerResource.pk r
     = LayerResource.paperId r +:+ "-" +:+ LayerResource.id r) ∧
  (∀ (number : Type) (r : AnnotationResource.t number),
     AnnotationResource.pk r
     = AnnotationResource.paperId r +:+ "-" +:+ AnnotationResource.layerId r
       +:+ "-" +:+ AnnotationResource.id r).
Proof. repeat split. Qed.

(** C1, as stated, fails: each of the four builders, given an object that
    lacks an ancestor id, returns a URL in which the missing id reads
    "undefined". *)
Lemma url_without_ancestor_returns :
  get "paperId" [("id", "L1")] = None ∧
  LayerResource.url (Some [("id", "L1")])
    = Return "http://localhost:8000/papers/undefined/layers/L1" ∧
  get "paperId" [("page", "2")] = None ∧
  LayerResource.listUrl (Some [("page", "2")])
    = Return "http://localhost:8000/papers/undefined/layers/?page=2" ∧
  get "layerId" [("paperId", "P1"); ("id", "A1")] = None ∧
  AnnotationResource.url (Some [("paperId", "P1"); ("id", "A1")])
    = Return "http://localhost:8000/papers/P1/layers/undefined/bbx/A1" ∧
  get "layerId" [("paperId", "P1"); ("page", "2")] = None ∧
  AnnotationResource.listUrl (Some [("paperId", "P1"); ("page", "2")])
    = Return "http://localhost:8000/papers/P1/layers/undefined/bbx/?page=2".
Proof. repeat split. Qed.

(** C1, amended: the detail URL builders throw their descriptive error when
    called without a parameter object, and the list URL builders when called
    without one or with an empty one; called with an object that holds the
    required ancestor ids, every builder returns the URL built from them.
    Nothing else is asked for: the detail URL ends with the id of the
    resource as the object gives it, present or not. *)
Theorem url_builders_params :
  let layers_msg := "Layers require paperId to retrieve" in
  let bbx_msg := "Layers require paperId and layerId to retrieve" in
  LayerResource.url None = Throw layers_msg ∧
  LayerResource.listUrl None = Throw layers_msg ∧
  LayerResource.listUrl (Some []) = Throw layers_msg ∧
  AnnotationResource.url None = Throw bbx_msg ∧
  AnnotationResource.listUrl None = Throw bbx_msg ∧
  AnnotationResource.listUrl (Some []) = Throw bbx_msg ∧
  (∀ (p : object) paper,
     get "paperId" p = Some paper →
     LayerResource.url (Some p)
     = Return ("http://localhost:8000/papers/" +:+ paper +:+ "/layers/"
               +:+ to_str (get "id" p))) ∧
  (∀ (p : object) paper,
     get "paperId" p = Some paper →
     LayerResource.listUrl (Some p)
     = Return ("http://localhost:8000/papers/" +:+ paper +:+ "/layers/?"
               +:+ toString (sort (rest_without ["paperId"] p)))) ∧
  (∀ (p : object) paper layer,
     get "paperId" p = Some paper → get "layerId" p = Some layer →
     AnnotationResource.url (Some p)
     = Return ("http://localhost:8000/papers/" +:+ paper +:+ "/layers/" +:+ layer
               +:+ "/bbx/" +:+ to_str (get "id" p))) ∧
  (∀ (p : object) paper layer,
     get "paperId" p = Some paper → get "layerId" p = Some layer →
     AnnotationResource.listUrl (Some p)
     = Return ("http://localhost:8000/papers/" +:+ paper +:+ "/layers/" +:+ layer
               +:+ "/bbx/?"
               +:+ toString (sort (rest_without ["paperId"; "layerId"] p)))).
Proof.
  repeat split.
  - intros p paper Hp. simpl. by rewrite Hp.
  - intros p paper Hp. simpl.
    destruct p as [|kv p]; [done|]. simpl in *. by rewrite Hp.
  - intros p paper layer Hp Hl. simpl. by rewrite Hp, Hl.
  - intros p paper layer Hp Hl. simpl.
    destruct p as [|kv p]; [done|]. simpl in *. by rewrite Hp, Hl.
Qed.

Lemma url_builders_params_witness :
  LayerResource.url (Some [("paperId", "P1"); ("id", "L1")])
    = Return "http://localhost:8000/papers/P1/layers/L1" ∧
  LayerResource.url (Some [("paperId", "P1")])
    = Return "http://localhost:8000/papers/P1/layers/undefined" ∧
  LayerResource.listUrl (Some [("page", "2"); ("paperId", "P1")])
    = Return "http://localhost:8000/papers/P1/layers/?page=2" ∧
  AnnotationResource.url (Some [("paperId", "P1"); ("layerId", "L1"); ("id", "A1")])
    = Return "http://localhost:8000/papers/P1/layers/L1/bbx/A1" ∧
  AnnotationResource.url (Some [("layerId", "L1"); ("paperId", "P1")])
    = Return "http://localhost:8000/papers/P1/layers/L1/bbx/undefined" ∧
  AnnotationResource.listUrl (Some [("layerId", "L1"); ("paperId", "P1")])
    = Return "http://localhost:8000/papers/P1/layers/L1/bbx/?".
Proof.
  destruct url_builders_params as (_ & _ & _ & _ & _ & _ & H1 & H2 & H3 & H4).
  split_and!.
  - apply (H1 [("paperId", "P1"); ("id", "L1")] "P1"); reflexivity.
  - apply (H1 [("paperId", "P1")] "P1"); reflexivity.
  - apply (H2 [("page", "2"); ("paperId", "P1")] "P1"); reflexivity.
  - apply (H3 [("paperId", "P1"); ("layerId", "L1"); ("id", "A1")] "P1" "L1");
      reflexivity.
  - apply (H3 [("layerId", "L1"); ("paperId", "P1")] "P1" "L1"); reflexivity.
  - apply (H4 [("layerId", "L1"); ("paperId", "P1")] "P1" "L1"); reflexivity.
Defined.

(** C4: two parameter objects holding the same key/value pairs (ancestor ids
    included) in different insertion orders give character-for-character the
    same list URL, and the query parameters are serialized sorted by name. *)
Theorem listUrl_insertion_order (q1 q2 : object) :
  NoDup (keys q1) → q1 ≡ₚ q2 →
  LayerResource.listUrl (Some q1) = LayerResource.listUrl (Some q2) ∧
  AnnotationResource.listUrl (Some q1) = AnnotationResource.listUrl (Some q2) ∧
  (q1 ≠ [] →
   ∃ ps ps' : URLSearchParams,
     StronglySorted by_name ps ∧ ps ≡ₚ rest_without ["paperId"] q1 ∧
     LayerResource.listUrl (Some q1)
     = Return ("http://localhost:8000/papers/" +:+ to_str (get "paperId" q1)
               +:+ "/layers/?" +:+ toString ps) ∧
     StronglySorted by_name ps' ∧ ps' ≡ₚ rest_without ["paperId"; "layerId"] q1 ∧
     AnnotationResource.listUrl (Some q1)
     = Return ("http://localhost:8000/papers/" +:+ to_str (get "paperId" q1)
               +:+ "/layers/" +:+ to_str (get "layerId" q1)
               +:+ "/bbx/?" +:+ toString ps')).
Proof.
  intros Hnd Hp.
  assert (∀ named, sort (rest_without named q1) = sort (rest_without named q2)) as Hs.
  { intros named. apply sort_Permutation_eq.
    - by apply rest_without_keys_NoDup.
    - unfold rest_without. by rewrite Hp. }
  assert (∀ k, get k q1 = get k q2) as Hg
    by (intros k; by apply get_Permutation).
  assert (length (keys q1) = length (keys q2)) as Hlen
    by (unfold keys; by rewrite Hp).
  split; [|split].
  - unfold LayerResource.listUrl, URLSearchParams_new.
    by rewrite Hlen, Hs, Hg.
  - unfold AnnotationResource.listUrl, URLSearchParams_new.
    by rewrite Hlen, Hs, !Hg.
  - intros Hne.
    exists (sort (rest_without ["paperId"] q1)),
      (sort (rest_without ["paperId"; "layerId"] q1)).
    split_and!; try apply sort_StronglySorted; try apply sort_Permutation;
      by destruct q1.
Qed.

Lemma listUrl_insertion_order_witness :
  LayerResource.listUrl
    (Some [("page", "2"); ("paperId", "P1"); ("layerId", "L1"); ("label", "a b")])
  = LayerResource.listUrl
      (Some [("label", "a b"); ("layerId", "L1"); ("paperId", "P1"); ("page", "2")])
  ∧ AnnotationResource.listUrl
      (Some [("page", "2"); ("paperId", "P1"); ("layerId", "L1"); ("label", "a b")])
    = Return "http://localhost:8000/papers/P1/layers/L1/bbx/?label=a+b&page=2".
Proof.
  destruct (listUrl_insertion_order
              [("page", "2"); ("paperId", "P1"); ("layerId", "L1"); ("label", "a b")]
              [("label", "a b"); ("layerId", "L1"); ("paperId", "P1"); ("page", "2")])
    as (H1 & _ & _).
  - by_evaluation.
  - apply (Permutation_rev
             [("page", "2"); ("paperId", "P1"); ("layerId", "L1"); ("label", "a b")]).
  - split; [exact H1|reflexivity].
Defined.

(** ** Optimistic update of an annotation *)

(** C10: the optimistic update is the patch body merged over the record
    [{id: params.id}]: every field of the body, the id of the request
    parameters unless the body has an id of its own, and nothing else. *)
Theorem optimisticUpdate_fields {value : Type} (undefined : value)
    (params body : gmap string value) :
  (∀ k : string,
     AnnotationResource.optimisticUpdate undefined params body !! k
     = match body !! k with
       | Some v => Some v
       | None =>
           if decide (k = "id")
           then Some (match params !! "id" with Some i => i | None => undefined end)
           else None
       end) ∧
  dom (AnnotationResource.optimisticUpdate undefined params body)
  = {["id"]} ∪ dom body ∧
  (∀ i, params !! "id" = Some i → body !! "id" = None →
        AnnotationResource.optimisticUpdate undefined params body !! "id" = Some i) ∧
  (params !! "id" = None → body !! "id" = None →
   AnnotationResource.optimisticUpdate undefined params body !! "id"
   = Some undefined) ∧
  (∀ i, body !! "id" = Some i →
        AnnotationResource.optimisticUpdate undefined params body !! "id" = Some i) ∧
  (∀ k, k ≠ "id" →
        AnnotationResource.optimisticUpdate undefined params body !! k = body !! k).
Proof.
  assert (∀ k : string,
     AnnotationResource.optimisticUpdate undefined params body !! k
     = match body !! k with
       | Some v => Some v
       | None =>
           if decide (k = "id")
           then Some (match params !! "id" with Some i => i | None => undefined end)
           else None
       end) as Hlookup.
  { unfold AnnotationResource.optimisticUpdate. intros k. rewrite lookup_union.
    destruct (body !! k) as [v|] eqn:Hb.
    + by destruct ({[_ := _]} !! k).
    + rewrite (left_id_L None (∪)). case_decide as Hk.
      * subst k. by rewrite lookup_singleton_eq.
      * by rewrite lookup_singleton_ne. }
  split_and!.
  - done.
  - unfold AnnotationResource.optimisticUpdate.
    rewrite dom_union_L, dom_singleton_L. apply (comm_L (∪)).
  - intros i Hp Hb. by rewrite Hlookup, Hb, Hp.
  - intros Hp Hb. by rewrite Hlookup, Hb, Hp.
  - intros i Hb. by rewrite Hlookup, Hb.
  - intros k Hk. rewrite Hlookup. destruct (body !! k); [done|].
    by rewrite decide_False.
Qed.

Lemma optimisticUpdate_fields_witness :
  AnnotationResource.optimisticUpdate "undefined"
    {[ "id" := "A1"; "layerId" := "L1"; "paperId" := "P1" ]}
    {[ "label" := "title"; "page_num" := "3" ]} !! "id"
  = Some "A1".
Proof.
  destruct (optimisticUpdate_fields "undefined"
              {[ "id" := "A1"; "layerId" := "L1"; "paperId" := "P1" ]}
              {[ "label" := "title"; "page_num" := "3" ]})
    as (_ & _ & Hid & _).
  apply (Hid "A1"); reflexivity.
Defined.

(** ** Label shortcuts *)

Section shortcut_facts.
Implicit Types (sc : shortcut_map) (c k : ascii) (label v : string)
  (labels pre post : list string).

Lemma has_key_true c sc : has_key c sc = true ↔ c ∈ keys sc.
Proof. apply bool_decide_eq_true. Qed.

Lemma has_key_false c sc : has_key c sc = false ↔ c ∉ keys sc.
Proof. apply bool_decide_eq_false. Qed.

Lemma app_String c (s t : string) : String c s +:+ t = String c (s +:+ t).
Proof. reflexivity. Qed.

Lemma chars_app (s t : string) : chars (s +:+ t) = chars s ++ chars t.
Proof. induction s as [|c s IH]; [done|]. rewrite app_String. simpl. by rewrite IH. Qed.

Lemma spread_set_new sc c label :
  c ∉ keys sc → spread_set sc c label = place_new c label sc.
Proof. intros Hc. unfold spread_set. by rewrite (proj2 (has_key_false c sc) Hc). Qed.

Lemma scan_first_unclaimed sc label todo :
  scan sc label todo = (λ c, spread_set sc c label) <$> first_unclaimed sc todo.
Proof.
  induction todo as [|c todo IH]; simpl; [done|].
  by destruct (has_key c sc).
Qed.

Lemma first_unclaimed_Some sc label c :
  first_unclaimed sc label = Some c ↔
  ∃ s1 s2 : string,
    label = s1 +:+ String c s2 ∧ Forall (λ x, x ∈ keys sc) (chars s1) ∧ c ∉ keys sc.
Proof.
  split.
  - induction label as [|x label IH]; simpl; [done|].
    destruct (has_key x sc) eqn:Hx.
    + intros (s1 & s2 & -> & Hs1 & Hc)%IH.
      exists (String x s1), s2. split_and!; [done| |done].
      simpl. constructor; [by apply has_key_true|done].
    + intros [= ->]. exists "", label. split_and!; [done|constructor|].
      by apply has_key_false.
  - intros (s1 & s2 & -> & Hs1 & Hc).
    induction s1 as [|x s1 IH]; simpl in *.
    + by rewrite (proj2 (has_key_false c sc) Hc).
    + apply Forall_cons in Hs1 as [Hx Hs1].
      rewrite (proj2 (has_key_true x sc) Hx). auto.
Qed.

Lemma first_unclaimed_None sc label :
  first_unclaimed sc label = None ↔ Forall (λ x, x ∈ keys sc) (chars label).
Proof.
  induction label as [|x label IH]; simpl.
  - split; [constructor|done].
  - rewrite Forall_cons. destruct (has_key x sc) eqn:Hx.
    + apply has_key_true in Hx. rewrite IH. by split; [|intros [_ ?]].
    + apply has_key_false in Hx. by split; [|intros [? _]].
Qed.

Lemma place_new_Permutation c v sc : place_new c v sc ≡ₚ (c, v) :: sc.
Proof.
  induction sc as [|[k w] sc IH]; simpl; [done|].
  destruct (enumerated_before c k); [done|].
  rewrite IH. apply Permutation_swap.
Qed.

Lemma derive_snoc labels label :
  derive (labels ++ [label]) = reducer (derive labels) label.
Proof. unfold derive, reduce_from. apply foldl_snoc. Qed.

Lemma derive_app pre post :
  derive (pre ++ post) = reduce_from (derive pre) post.
Proof. unfold derive, reduce_from. apply foldl_app. Qed.

Lemma shortcuts_snoc labels label :
  shortcuts (labels ++ [label])
  = match first_unclaimed (shortcuts labels) label with
    | Some c => place_new c label (shortcuts labels)
    | None => shortcuts labels
    end.
Proof.
  unfold shortcuts. rewrite derive_snoc. unfold reducer.
  rewrite scan_first_unclaimed.
  destruct (first_unclaimed _ label) as [c|] eqn:Hc; simpl; [|done].
  apply spread_set_new. by apply first_unclaimed_Some in Hc as (_ & _ & _ & _ & ?).
Qed.

Lemma warnings_snoc labels label :
  warnings (labels ++ [label])
  = match first_unclaimed (shortcuts labels) label with
    | Some c => warnings labels
    | None =>
        warnings labels ++ [["Warning: unable to deduce shortcut for "; label]]
    end.
Proof.
  unfold warnings, shortcuts. rewrite derive_snoc. unfold reducer.
  rewrite scan_first_unclaimed.
  by destruct (first_unclaimed _ label).
Qed.

(** No character is bound twice. *)
Lemma shortcuts_keys_NoDup labels : NoDup (keys (shortcuts labels)).
Proof.
  induction labels as [|label labels IH] using rev_ind; [constructor|].
  rewrite shortcuts_snoc.
  destruct (first_unclaimed _ label) as [c|] eqn:Hc; [|done].
  apply first_unclaimed_Some in Hc as (_ & _ & _ & _ & Hc).
  unfold keys in *. rewrite place_new_Permutation. simpl. by constructor.
Qed.

(** Where a binding comes from: the label stands somewhere in the list, and
    the character is the one the loop stops at for the labels before it. *)
Lemma elem_of_shortcuts labels k v :
  (k, v) ∈ shortcuts labels ↔
  ∃ pre post, labels = pre ++ v :: post ∧ first_unclaimed (shortcuts pre) v = Some k.
Proof.
  induction labels as [|label labels IH] using rev_ind.
  { split; [by intros ?%elem_of_nil|]. by intros ([|??] & ? & ? & _). }
  assert ((k, v) ∈ shortcuts labels ∨
          (v = label ∧ first_unclaimed (shortcuts labels) label = Some k)
          ↔ ∃ pre post, labels ++ [label] = pre ++ v :: post ∧
                        first_unclaimed (shortcuts pre) v = Some k) as Hsplit.
  { rewrite IH. split.
    - intros [(pre & post & -> & Hk)|[-> Hk]].
      + exists pre, (post ++ [label]). by rewrite <-app_assoc.
      + by exists labels, [].
    - intros (pre & post & Heq & Hk).
      destruct post as [|p post _] using rev_ind.
      + apply app_inj_tail in Heq as [-> ->]. by right.
      + rewrite app_comm_cons, app_assoc in Heq.
        apply app_inj_tail in Heq as [-> ->]. left. by exists pre, post. }
  rewrite <-Hsplit, shortcuts_snoc.
  destruct (first_unclaimed _ label) as [c|] eqn:Hc.
  - rewrite place_new_Permutation, elem_of_cons. split.
    + intros [[= -> ->]|?]; [by right|by left].
    + intros [?|[-> [= ->]]]; [by right|by left].
  - split; [by left|]. by intros [?|[_ ?]].
Qed.
End shortcut_facts.

Section highlight_facts.
Implicit Types (sc : shortcut_map) (c k : ascii) (label v : string).





Lemma NoDup_split_unique {A} (x : A) pre post pre' post' :
  NoDup (pre ++ x :: post) → pre ++ x :: post = pre' ++ x :: post' → pre = pre'.
Proof.
  revert pre'. induction pre as [|a pre IH]; intros [|b pre']; simpl; try done.
  - intros Hnd [= <- ->]. apply NoDup_cons in Hnd as [Hx _].
    destruct Hx. apply elem_of_app. right. left.
  - intros Hnd [= -> _]. apply NoDup_cons in Hnd as [Hx _].
    destruct Hx. apply elem_of_app. right. left.
  - intros Hnd [= <- Heq]. apply NoDup_cons in Hnd as [_ Hnd].
    f_equal. by apply IH.
Qed.
End highlight_facts.

(** C2: each label is given the first of its characters, read from left to
    right, that no earlier label has claimed; the labels "cat", "car", "dog"
    give exactly c→cat, a→car, d→dog. *)
Theorem shortcut_first_unclaimed :
  shortcuts ["cat"; "car"; "dog"]
  = [("c"%char, "cat"); ("a"%char, "car"); ("d"%char, "dog")] ∧
  ∀ (pre : list string) (label : string) (post : list string)
    (s1 : string) (c : ascii) (s2 : string),
    label = s1 +:+ String c s2 →
    Forall (λ x, x ∈ keys (shortcuts pre)) (chars s1) →
    c ∉ keys (shortcuts pre) →
    shortcuts (pre ++ [label]) = spread_set (shortcuts pre) c label ∧
    shortcuts (pre ++ [label]) ≡ₚ (c, label) :: shortcuts pre ∧
    get c (shortcuts (pre ++ label :: post)) = Some label.
Proof.
  split; [reflexivity|].
  intros pre label post s1 c s2 Hlabel Hs1 Hc.
  assert (first_unclaimed (shortcuts pre) label = Some c) as Hfirst
    by (apply first_unclaimed_Some; eauto).
  rewrite shortcuts_snoc, Hfirst, spread_set_new by done.
  split_and!; [done|apply place_new_Permutation|].
  apply elem_of_get; [apply shortcuts_keys_NoDup|].
  apply elem_of_shortcuts. eauto.
Qed.

Lemma shortcut_first_unclaimed_witness :
  shortcuts (["cat"] ++ ["car"]) = spread_set (shortcuts ["cat"]) "a" "car" ∧
  shortcuts (["cat"] ++ ["car"]) ≡ₚ ("a"%char, "car") :: shortcuts ["cat"] ∧
  get "a"%char (shortcuts (["cat"] ++ "car" :: ["dog"])) = Some "car".
Proof.
  apply (proj2 shortcut_first_unclaimed ["cat"] "car" ["dog"] "c" "a"%char "r").
  - reflexivity.
  - by_evaluation.
  - by_evaluation.
Defined.

(** C7: a label all of whose characters are claimed by earlier labels leaves
    the mapping as it is, adds one warning to the console, and the
    derivation goes on with the labels after it. *)
Theorem shortcut_unresolvable (pre : list string) (label : string)
    (post : list string) :
  Forall (λ x, x ∈ keys (shortcuts pre)) (chars label) →
  let warning := ["Warning: unable to deduce shortcut for "; label] in
  shortcuts (pre ++ [label]) = shortcuts pre ∧
  warnings (pre ++ [label]) = warnings pre ++ [warning] ∧
  derive (pre ++ label :: post)
  = reduce_from (shortcuts pre, warnings pre ++ [warning]) post.
Proof.
  intros Hall%first_unclaimed_None warning.
  assert (derive (pre ++ [label]) = (shortcuts pre, warnings pre ++ [warning]))
    as Hstep.
  { rewrite (surjective_pairing (derive (pre ++ [label]))).
    change (derive (pre ++ [label])).1 with (shortcuts (pre ++ [label])).
    change (derive (pre ++ [label])).2 with (warnings (pre ++ [label])).
    by rewrite shortcuts_snoc, warnings_snoc, Hall. }
  split_and!.
  - by rewrite shortcuts_snoc, Hall.
  - by rewrite warnings_snoc, Hall.
  - by rewrite (cons_middle label pre post), app_assoc, derive_app, Hstep.
Qed.

Lemma shortcut_unresolvable_witness :
  shortcuts (["ab"; "ba"] ++ ["bab"]) = shortcuts ["ab"; "ba"] ∧
  warnings (["ab"; "ba"] ++ ["bab"])
  = warnings ["ab"; "ba"] ++ [["Warning: unable to deduce shortcut for "; "bab"]] ∧
  derive (["ab"; "ba"] ++ "bab" :: ["c"])
  = reduce_from
      (shortcuts ["ab"; "ba"],
       warnings ["ab"; "ba"] ++ [["Warning: unable to deduce shortcut for "; "bab"]])
      ["c"].
Proof.
  apply (shortcut_unresolvable ["ab"; "ba"] "bab" ["c"]).
  by_evaluation.
Defined.

(** C9, as stated, fails: a label that occurs twice is the target of two
    distinct shortcut characters. *)
Lemma shortcuts_repeated_label :
  shortcuts ["ab"; "ab"] = [("a"%char, "ab"); ("b"%char, "ab")] ∧
  get "a"%char (shortcuts ["ab"; "ab"]) = Some "ab" ∧
  get "b"%char (shortcuts ["ab"; "ab"]) = Some "ab" ∧
  "a"%char ≠ "b"%char.
Proof. repeat split. discriminate. Qed.

(** C9, amended: for every list of labels no character is bound twice, every
    shortcut character occurs in the label it maps to, and that label is one
    of the list; when the labels are pairwise distinct, each label is the
    target of at most one shortcut character (distinct characters map to
    distinct labels). *)
Theorem shortcuts_injective (labels : list string) :
  NoDup (keys (shortcuts labels)) ∧
  (∀ c label, get c (shortcuts labels) = Some label →
              c ∈ chars label ∧ label ∈ labels) ∧
  (NoDup labels →
   NoDup (shortcuts labels).*2 ∧
   ∀ c1 c2 label,
     get c1 (shortcuts labels) = Some label →
     get c2 (shortcuts labels) = Some label → c1 = c2).
Proof.
  assert (NoDup labels →
          ∀ c1 c2 label, (c1, label) ∈ shortcuts labels →
                         (c2, label) ∈ shortcuts labels → c1 = c2) as Hinj.
  { intros Hnd c1 c2 label
      (pre1 & post1 & H1 & Hc1)%elem_of_shortcuts
      (pre2 & post2 & H2 & Hc2)%elem_of_shortcuts.
    assert (pre1 = pre2) as ->; [|congruence].
    apply (NoDup_split_unique label pre1 post1 pre2 post2); congruence. }
  split_and!.
  - apply shortcuts_keys_NoDup.
  - intros c label (pre & post & -> & Hc)%get_Some_elem_of%elem_of_shortcuts.
    apply first_unclaimed_Some in Hc as (s1 & s2 & -> & _ & _). split.
    + rewrite chars_app. apply elem_of_app. right. left.
    + apply elem_of_app. right. left.
  - intros Hnd. split.
    + apply NoDup_fmap_2_strong.
      * intros [c1 l1] [c2 l2] H1 H2 Heq. simpl in Heq. subst l2.
        f_equal. by apply (Hinj Hnd c1 c2 l1).
      * apply (NoDup_fmap_1 fst), shortcuts_keys_NoDup.
    + intros c1 c2 label H1%get_Some_elem_of H2%get_Some_elem_of.
      by apply (Hinj Hnd c1 c2 label).
Qed.

Lemma shortcuts_injective_witness :
  NoDup (shortcuts ["cat"; "car"; "dog"]).*2.
Proof.
  assert (NoDup ["cat"; "car"; "dog"]) as Hnd
    by (by_evaluation).
  exact (proj1 (proj2 (proj2 (shortcuts_injective ["cat"; "car"; "dog"])) Hnd)).
Defined.





(** ** Creation of layers *)

(** C5: the [+new] / [+layer] button posts the name "Untitled" with no source
    extractor; on success the updater puts the new layer at the end of the
    cached list of the paper, the list before it unchanged, and makes a
    singleton list when the cache holds no list. *)
Theorem create_untitled_layer {val : Type} (paperId owner : string)
    (newAnnotation result_id : string) (w : world (val := val)) :
  let untitled := Post paperId (mk_body owner false None "Untitled") in
  updater newAnnotation None = [newAnnotation] ∧
  (∀ current, updater newAnnotation (Some current) = current ++ [newAnnotation]) ∧
  button_onClick (createAnnotationLayer_class paperId owner)
    (Created newAnnotation result_id) w
  = (mk_world (Some (default [] (cache w) ++ [newAnnotation]))
       (trace w ++ [untitled; OnNewLayer newAnnotation]), None) ∧
  button_onClick (createAnnotationLayer_model paperId owner)
    (Created newAnnotation result_id) w
  = (mk_world (Some (default [] (cache w) ++ [newAnnotation]))
       (trace w ++ [ConsoleLog paperId; untitled; OnDisplayChange result_id true]),
     None) ∧
  (∀ e, button_onClick (createAnnotationLayer_class paperId owner) (Failed e) w
        = (mk_world (cache w) (trace w ++ [untitled]), Some (RequestError e))) ∧
  (∀ e, button_onClick (createAnnotationLayer_model paperId owner) (Failed e) w
        = (mk_world (cache w) (trace w ++ [ConsoleLog paperId; untitled]),
           Some (RequestError e))).
Proof.
  intros untitled. unfold button_onClick, createAnnotationLayer_class,
    createAnnotationLayer_model, updater, emit. simpl.
  split_and!; intros; by rewrite <-?app_assoc.
Qed.

(** C6: when the creation of a layer "from.X" from the extractor X is
    rejected with a response whose body is JSON, the message of that body is
    shown as an alert and the select is enabled again, its value reset to
    the empty string. *)
Theorem create_from_extractor_failure {val : Type} (undefined : val)
    (paperId owner X : string) (was_disabled : bool)
    (json : gmap string val) (w : world (val := val)) :
  X ≠ "" →
  let request := Post paperId (mk_body owner false (Some X) ("from." +:+ X)) in
  let alert := AlertError (default undefined (json !! "message")) in
  select_onChange undefined (createAnnotationLayer_class paperId owner)
    (mk_select X was_disabled) (Failed (Response (Some json))) w
  = (mk_select "" false, mk_world (cache w) (trace w ++ [request; alert]), None) ∧
  select_onChange undefined (createAnnotationLayer_model paperId owner)
    (mk_select X was_disabled) (Failed (Response (Some json))) w
  = (mk_select "" false,
     mk_world (cache w) (trace w ++ [ConsoleLog paperId; request; alert]), None).
Proof.
  intros HX request alert. unfold select_onChange. simpl.
  rewrite bool_decide_eq_true_2 by done.
  unfold createAnnotationLayer_class, createAnnotationLayer_model, emit. simpl.
  by rewrite <-!app_assoc.
Qed.

Lemma create_from_extractor_failure_witness :
  select_onChange "undefined" (createAnnotationLayer_class "P1" "C1")
    (mk_select "X" false)
    (Failed (Response (Some {[ "message" := "no such extractor" ]})))
    (mk_world (Some ["P1-L1"]) [])
  = (mk_select "" false,
     mk_world (Some ["P1-L1"])
       [Post "P1" (mk_body "C1" false (Some "X") "from.X");
        AlertError "no such extractor"], None).
Proof.
  assert ("X" ≠ "") as HX by discriminate.
  exact (proj1 (create_from_extractor_failure "undefined" "P1" "C1" "X" false
                  {[ "message" := "no such extractor" ]}
                  (mk_world (Some ["P1-L1"]) []) HX)).
Defined.

(** * Further properties *)

(** ** Keys and URLs tell resources apart *)

Section separator_facts.
Implicit Types (c : ascii) (s t : string).

(** A string is cut in one way only at the first occurrence of a separator. *)
Lemma app_sep_inj c s1 t1 s2 t2 :
  c ∉ chars s1 → c ∉ chars s2 →
  s1 +:+ String c t1 = s2 +:+ String c t2 → s1 = s2 ∧ t1 = t2.
Proof.
  revert s2. induction s1 as [|a s1 IH]; intros [|b s2]; simpl.
  - intros _ _ [= ->]. done.
  - intros _ [Hb _]%not_elem_of_cons [= -> _]. done.
  - intros [Ha _]%not_elem_of_cons _ [= -> _]. done.
  - intros [_ H1]%not_elem_of_cons [_ H2]%not_elem_of_cons [= -> Heq].
    destruct (IH s2 H1 H2 Heq) as [-> ->]. done.
Qed.

Lemma app_sep_end c s1 s2 t : c ∉ chars s1 → s1 ≠ s2 +:+ String c t.
Proof.
  intros Hc ->. apply Hc. rewrite chars_app. apply elem_of_app. right. left.
Qed.
End separator_facts.

(** X1: the primary key tells layers apart when the paper ids hold no dash
    (and annotations apart when the paper ids and layer ids hold none);
    with a dash in a paper id two different layers can share a key. *)
Theorem pk_injective :
  (∀ r1 r2 : LayerResource.t,
     "-"%char ∉ chars (LayerResource.paperId r1) →
     "-"%char ∉ chars (LayerResource.paperId r2) →
     LayerResource.pk r1 = LayerResource.pk r2 →
     LayerResource.paperId r1 = LayerResource.paperId r2 ∧
     LayerResource.id r1 = LayerResource.id r2) ∧
  (∀ (number : Type) (r1 r2 : AnnotationResource.t number),
     "-"%char ∉ chars (AnnotationResource.paperId r1) →
     "-"%char ∉ chars (AnnotationResource.paperId r2) →
     "-"%char ∉ chars (AnnotationResource.layerId r1) →
     "-"%char ∉ chars (AnnotationResource.layerId r2) →
     AnnotationResource.pk r1 = AnnotationResource.pk r2 →
     AnnotationResource.paperId r1 = AnnotationResource.paperId r2 ∧
     AnnotationResource.layerId r1 = AnnotationResource.layerId r2 ∧
     AnnotationResource.id r1 = AnnotationResource.id r2) ∧
  (∀ kind name training,
     LayerResource.pk (LayerResource.mk "c" "a-b" kind name training)
     = LayerResource.pk (LayerResource.mk "b-c" "a" kind name training)).
Proof.
  split_and!.
  - intros r1 r2 H1 H2 Heq. by apply (app_sep_inj "-").
  - intros number r1 r2 H1 H2 H3 H4 Heq.
    apply (app_sep_inj "-") in Heq as [? Heq]; [|done..].
    apply (app_sep_inj "-") in Heq as [? ?]; done.
  - done.
Qed.

Lemma pk_injective_witness :
  LayerResource.paperId (LayerResource.mk "L1" "P1" "k" "n" false)
  = LayerResource.paperId (LayerResource.mk "L1" "P1" "segmentation" "m" true) ∧
  LayerResource.id (LayerResource.mk "L1" "P1" "k" "n" false)
  = LayerResource.id (LayerResource.mk "L1" "P1" "segmentation" "m" true).
Proof.
  apply (proj1 pk_injective
           (LayerResource.mk "L1" "P1" "k" "n" false)
           (LayerResource.mk "L1" "P1" "segmentation" "m" true)).
  - by_evaluation.
  - by_evaluation.
  - reflexivity.
Defined.

(** X2: the detail URL tells resources apart when the ancestor ids hold no
    slash: equal URLs come from equal paper ids (layer ids) and ids. *)
Theorem url_injective :
  (∀ p1 p2 : object,
     "/"%char ∉ chars (to_str (get "paperId" p1)) →
     "/"%char ∉ chars (to_str (get "paperId" p2)) →
     LayerResource.url (Some p1) = LayerResource.url (Some p2) →
     to_str (get "paperId" p1) = to_str (get "paperId" p2) ∧
     to_str (get "id" p1) = to_str (get "id" p2)) ∧
  (∀ p1 p2 : object,
     "/"%char ∉ chars (to_str (get "paperId" p1)) →
     "/"%char ∉ chars (to_str (get "paperId" p2)) →
     "/"%char ∉ chars (to_str (get "layerId" p1)) →
     "/"%char ∉ chars (to_str (get "layerId" p2)) →
     AnnotationResource.url (Some p1) = AnnotationResource.url (Some p2) →
     to_str (get "paperId" p1) = to_str (get "paperId" p2) ∧
     to_str (get "layerId" p1) = to_str (get "layerId" p2) ∧
     to_str (get "id" p1) = to_str (get "id" p2)).
Proof.
  split.
  - intros p1 p2 H1 H2 [= Heq]. apply (inj (String.app _)) in Heq.
    apply (app_sep_inj "/") in Heq as [? Heq]; [|done..].
    split; [done|]. by apply (inj (String.app "layers/")) in Heq.
  - intros p1 p2 H1 H2 H3 H4 [= Heq]. apply (inj (String.app _)) in Heq.
    apply (app_sep_inj "/") in Heq as [? Heq]; [|done..].
    apply (inj (String.app "layers/")) in Heq.
    apply (app_sep_inj "/") in Heq as [? Heq]; [|done..].
    split_and!; [done..|]. by apply (inj (String.app "bbx/")) in Heq.
Qed.

Lemma url_injective_witness :
  to_str (get "paperId" [("paperId", "P1"); ("id", "L1")])
  = to_str (get "paperId" [("id", "L1"); ("name", "x"); ("paperId", "P1")]) ∧
  to_str (get "id" [("paperId", "P1"); ("id", "L1")])
  = to_str (get "id" [("id", "L1"); ("name", "x"); ("paperId", "P1")]).
Proof.
  apply (proj1 url_injective
           [("paperId", "P1"); ("id", "L1")]
           [("id", "L1"); ("name", "x"); ("paperId", "P1")]).
  - by_evaluation.
  - by_evaluation.
  - reflexivity.
Defined.

(** ** The query of a list URL can be read back *)

Section urlencode_facts.
Implicit Types (c : ascii) (s t : string) (kv : string * string).

Lemma urldecode_urlencode_byte c t :
  urldecode (urlencode_byte c +:+ t) = String c (urldecode t).
Proof. destruct c as [[] [] [] [] [] [] [] []]; reflexivity. Qed.

Lemma urldecode_urlencode s : urldecode (urlencode s) = s.
Proof.
  induction s as [|c s IH]; [done|].
  change (urlencode (String c s)) with (urlencode_byte c +:+ urlencode s).
  by rewrite urldecode_urlencode_byte, IH.
Qed.

#[local] Instance urlencode_inj : Inj (=) (=) urlencode.
Proof.
  intros s t Heq. rewrite <-(urldecode_urlencode s), <-(urldecode_urlencode t).
  by rewrite Heq.
Qed.

Lemma urlencode_byte_alphabet c :
  Forall (λ x, urlencode_keeps x || bool_decide (x ∈ ["+"; "%"]%char))
    (chars (urlencode_byte c)).
Proof. destruct c as [[] [] [] [] [] [] [] []]; by_evaluation. Qed.

Lemma urlencode_alphabet s :
  Forall (λ x, urlencode_keeps x || bool_decide (x ∈ ["+"; "%"]%char))
    (chars (urlencode s)).
Proof.
  induction s as [|c s IH]; [constructor|].
  change (urlencode (String c s)) with (urlencode_byte c +:+ urlencode s).
  rewrite chars_app. apply Forall_app. split; [apply urlencode_byte_alphabet|done].
Qed.

Lemma urlencode_no_separator c s :
  c = "&"%char ∨ c = "="%char → c ∉ chars (urlencode s).
Proof.
  intros Hc Hin.
  apply (proj1 (Forall_forall _ _) (urlencode_alphabet s)) in Hin.
  by destruct Hc as [-> | ->].
Qed.

Lemma serialize_pair_chars kv :
  chars (serialize_pair kv)
  = chars (urlencode kv.1) ++ "="%char :: chars (urlencode kv.2).
Proof. unfold serialize_pair. by rewrite chars_app. Qed.

Lemma serialize_pair_no_amp kv : "&"%char ∉ chars (serialize_pair kv).
Proof.
  rewrite serialize_pair_chars, elem_of_app, elem_of_cons.
  intros [Hin|[?|Hin]]; [|done|]; revert Hin; apply urlencode_no_separator; auto.
Qed.

Lemma serialize_pair_nonempty kv : serialize_pair kv ≠ "".
Proof.
  intros Heq. pose proof (serialize_pair_chars kv) as Hc. rewrite Heq in Hc.
  by destruct (chars (urlencode kv.1)).
Qed.

#[local] Instance serialize_pair_inj : Inj (=) (=) serialize_pair.
Proof.
  intros [k1 v1] [k2 v2]. unfold serialize_pair. simpl. intros Heq.
  apply (app_sep_inj "=") in Heq as [Hk Hv];
    [|apply urlencode_no_separator; auto..].
  by rewrite (inj urlencode _ _ Hk), (inj urlencode _ _ Hv).
Qed.

Lemma concat_amp_cons x y (l : list string) :
  String.concat "&" (x :: y :: l) = x +:+ String "&" (String.concat "&" (y :: l)).
Proof. reflexivity. Qed.

Lemma concat_amp_inj (xs ys : list string) :
  Forall (λ x, ("&"%char ∉ chars x) ∧ x ≠ "") xs →
  Forall (λ x, ("&"%char ∉ chars x) ∧ x ≠ "") ys →
  String.concat "&" xs = String.concat "&" ys → xs = ys.
Proof.
  revert ys. induction xs as [|x xs IH]; intros ys Hxs Hys.
  - destruct ys as [|y [|y' ys]]; [done|..].
    + apply Forall_cons in Hys as [[_ Hy] _]. simpl. by intros <-.
    + apply Forall_cons in Hys as [[_ Hy] _]. rewrite concat_amp_cons.
      simpl. by destruct y.
  - apply Forall_cons in Hxs as [[Hx Hx'] Hxs].
    destruct ys as [|y ys].
    { destruct xs; [simpl; by intros ->|].
      rewrite concat_amp_cons. simpl. by destruct x. }
    apply Forall_cons in Hys as [[Hy Hy'] Hys].
    destruct xs as [|x' xs], ys as [|y' ys].
    + simpl. by intros ->.
    + rewrite concat_amp_cons. simpl. intros Heq.
      by apply app_sep_end in Heq.
    + rewrite concat_amp_cons. simpl. intros Heq. symmetry in Heq.
      by apply app_sep_end in Heq.
    + rewrite !concat_amp_cons. intros Heq.
      apply (app_sep_inj "&") in Heq as [-> Heq]; [|done..].
      f_equal. by apply IH.
Qed.

Lemma toString_inj (l1 l2 : URLSearchParams) : toString l1 = toString l2 → l1 = l2.
Proof.
  unfold toString. intros Heq. apply (inj (fmap serialize_pair)).
  apply concat_amp_inj; [| |done];
    apply Forall_fmap, Forall_forall; intros kv _; simpl;
    (split; [apply serialize_pair_no_amp|apply serialize_pair_nonempty]).
Qed.

End urlencode_facts.

(** X3: list URLs tell queries apart.  When the ancestor ids hold no slash,
    two parameter objects that give the same list URL have the same ancestor
    ids and the same other properties, up to their order. *)
Theorem listUrl_injective (q1 q2 : object) :
  ("/"%char ∉ chars (to_str (get "paperId" q1)) →
   "/"%char ∉ chars (to_str (get "paperId" q2)) →
   LayerResource.listUrl (Some q1) = LayerResource.listUrl (Some q2) →
   to_str (get "paperId" q1) = to_str (get "paperId" q2) ∧
   rest_without ["paperId"] q1 ≡ₚ rest_without ["paperId"] q2) ∧
  ("/"%char ∉ chars (to_str (get "paperId" q1)) →
   "/"%char ∉ chars (to_str (get "paperId" q2)) →
   "/"%char ∉ chars (to_str (get "layerId" q1)) →
   "/"%char ∉ chars (to_str (get "layerId" q2)) →
   AnnotationResource.listUrl (Some q1) = AnnotationResource.listUrl (Some q2) →
   to_str (get "paperId" q1) = to_str (get "paperId" q2) ∧
   to_str (get "layerId" q1) = to_str (get "layerId" q2) ∧
   rest_without ["paperId"; "layerId"] q1 ≡ₚ rest_without ["paperId"; "layerId"] q2).
Proof.
  assert (∀ r1 r2 : object, toString (sort r1) = toString (sort r2) → r1 ≡ₚ r2)
    as Hquery.
  { intros r1 r2 Heq%toString_inj.
    by rewrite <-(sort_Permutation r1), <-(sort_Permutation r2), Heq. }
  split.
  - intros H1 H2. destruct q1 as [|a1 q1], q2 as [|a2 q2]; try done.
    unfold LayerResource.listUrl, URLSearchParams_new.
    rewrite !bool_decide_eq_true_2 by done.
    intros [= Heq]. apply (inj (String.app _)) in Heq.
    apply (app_sep_inj "/") in Heq as [? Heq]; [|done..].
    apply (inj (String.app "layers/?")) in Heq. auto.
  - intros H1 H2 H3 H4. destruct q1 as [|a1 q1], q2 as [|a2 q2]; try done.
    unfold AnnotationResource.listUrl, URLSearchParams_new.
    rewrite !bool_decide_eq_true_2 by done.
    intros [= Heq]. apply (inj (String.app _)) in Heq.
    apply (app_sep_inj "/") in Heq as [? Heq]; [|done..].
    apply (inj (String.app "layers/")) in Heq.
    apply (app_sep_inj "/") in Heq as [? Heq]; [|done..].
    apply (inj (String.app "bbx/?")) in Heq. auto.
Qed.

Lemma listUrl_injective_witness :
  to_str (get "paperId" [("page", "2"); ("paperId", "P1"); ("q", "a b")])
  = to_str (get "paperId" [("q", "a b"); ("paperId", "P1"); ("page", "2")]) ∧
  rest_without ["paperId"] [("page", "2"); ("paperId", "P1"); ("q", "a b")]
  ≡ₚ rest_without ["paperId"] [("q", "a b"); ("paperId", "P1"); ("page", "2")].
Proof.
  apply (proj1 (listUrl_injective
                  [("page", "2"); ("paperId", "P1"); ("q", "a b")]
                  [("q", "a b"); ("paperId", "P1"); ("page", "2")])).
  - by_evaluation.
  - by_evaluation.
  - reflexivity.
Defined.



(** ** Shortcuts, warnings and hotkeys *)

(** X5: every label ends either with a shortcut or with a warning: the
    shortcuts and the warnings together are as many as the labels.  Each
    warning names a label of the list all of whose characters are shortcuts
    in the final mapping. *)
Theorem shortcuts_and_warnings (labels : list string) :
  length (shortcuts labels) + length (warnings labels) = length labels ∧
  ∀ entry, entry ∈ warnings labels →
    ∃ label, entry = ["Warning: unable to deduce shortcut for "; label] ∧
             label ∈ labels ∧
             Forall (λ c, c ∈ keys (shortcuts labels)) (chars label).
Proof.
  induction labels as [|label labels [IHn IHw]] using rev_ind.
  { split; [done|]. by intros ? ?%elem_of_nil. }
  rewrite shortcuts_snoc, warnings_snoc, !length_app. simpl.
  destruct (first_unclaimed (shortcuts labels) label) as [c|] eqn:Hc.
  - split.
    + rewrite (Permutation_length (place_new_Permutation c label _)). simpl. lia.
    + intros entry (l & -> & Hl & Hall)%IHw. exists l. split_and!; [done|set_solver|].
      eapply Forall_impl; [exact Hall|]. intros x Hx. unfold keys in *.
      rewrite place_new_Permutation. by right.
  - split.
    + rewrite length_app. simpl. lia.
    + intros entry [(l & -> & Hl & Hall)%IHw| ->%list_elem_of_singleton]%elem_of_app.
      * exists l. split_and!; [done|set_solver|done].
      * exists label. split_and!; [done|set_solver|].
        by apply first_unclaimed_None.
Qed.

(** X6: labels that follow never take a shortcut away nor change it, and
    never remove a warning: what the derivation gives for a list remains in
    what it gives for any longer list. *)
Theorem shortcuts_extend (pre post : list string) :
  (∀ c label, get c (shortcuts pre) = Some label →
              get c (shortcuts (pre ++ post)) = Some label) ∧
  warnings pre `prefix_of` warnings (pre ++ post).
Proof.
  split.
  - intros c label (p1 & p2 & -> & Hc)%get_Some_elem_of%elem_of_shortcuts.
    apply elem_of_get; [apply shortcuts_keys_NoDup|].
    apply elem_of_shortcuts. exists p1, (p2 ++ post).
    by rewrite <-app_assoc.
  - induction post as [|label post IH] using rev_ind.
    + by rewrite app_nil_r.
    + rewrite app_assoc, warnings_snoc.
      destruct (first_unclaimed _ label); [done|].
      by apply prefix_app_r.
Qed.

Lemma shortcuts_extend_witness :
  get "c"%char (shortcuts (["cat"] ++ ["cow"; "c"])) = Some "cat".
Proof.
  apply (proj1 (shortcuts_extend ["cat"] ["cow"; "c"]) "c"%char "cat").
  reflexivity.
Defined.



Lemma shortcuts_and_warnings_witness :
  ∃ label,
    ["Warning: unable to deduce shortcut for "; "bab"]
    = ["Warning: unable to deduce shortcut for "; label] ∧
    label ∈ ["ab"; "ba"; "bab"] ∧
    Forall (λ c, c ∈ keys (shortcuts ["ab"; "ba"; "bab"])) (chars label).
Proof.
  apply (proj2 (shortcuts_and_warnings ["ab"; "ba"; "bab"])
           ["Warning: unable to deduce shortcut for "; "bab"]).
  by_evaluation.
Defined.

(** A binding of the derived mapping joins a label of the list with one of
    its characters. *)
Lemma shortcut_binding_sound (labels : list string) (c : ascii) (label : string) :
  (c, label) ∈ shortcuts labels → label ∈ labels ∧ c ∈ chars label.
Proof.
  intros (pre & post & -> & Hc)%elem_of_shortcuts.
  apply first_unclaimed_Some in Hc as (s1 & s2 & -> & _ & _). split.
  - apply elem_of_app. right. left.
  - rewrite chars_app. apply elem_of_app. right. left.
Qed.



(** X9: the buttons have pairwise distinct keys exactly when the labels are
    pairwise distinct, and there is one button for each label. *)
Theorem render_keys_distinct (labels : list string) :
  length (render labels) = length labels ∧
  (NoDup (render labels).*1 ↔ NoDup labels).
Proof.
  unfold render. split; [by rewrite length_fmap|].
  rewrite <-list_fmap_compose.
  apply (NoDup_fmap (String.app "label-")).
Qed.

(** ** Creating a layer from an extractor, and the cache *)

(** X10: when the creation from an extractor is rejected and the error has
    no response, or a response whose body is not JSON, the callback of
    [catch] is rejected in turn: no alert is shown and the select stays
    disabled, with the chosen value. *)
Theorem create_from_extractor_unreadable_failure {val : Type} (undefined : val)
    (paperId owner X : string) (was_disabled : bool) (w : world (val := val)) :
  X ≠ "" →
  let request := Post paperId (mk_body owner false (Some X) ("from." +:+ X)) in
  select_onChange undefined (createAnnotationLayer_class paperId owner)
    (mk_select X was_disabled) (Failed NoResponse) w
  = (mk_select X true, mk_world (cache w) (trace w ++ [request]), Some TypeError) ∧
  select_onChange undefined (createAnnotationLayer_class paperId owner)
    (mk_select X was_disabled) (Failed (Response None)) w
  = (mk_select X true, mk_world (cache w) (trace w ++ [request]), Some SyntaxError) ∧
  select_onChange undefined (createAnnotationLayer_model paperId owner)
    (mk_select X was_disabled) (Failed NoResponse) w
  = (mk_select X true,
     mk_world (cache w) (trace w ++ [ConsoleLog paperId; request]), Some TypeError) ∧
  select_onChange undefined (createAnnotationLayer_model paperId owner)
    (mk_select X was_disabled) (Failed (Response None)) w
  = (mk_select X true,
     mk_world (cache w) (trace w ++ [ConsoleLog paperId; request]), Some SyntaxError).
Proof.
  intros HX request. unfold select_onChange. simpl.
  rewrite bool_decide_eq_true_2 by done.
  unfold createAnnotationLayer_class, createAnnotationLayer_model, emit. simpl.
  by rewrite <-!app_assoc.
Qed.

Lemma create_from_extractor_unreadable_failure_witness :
  select_onChange "undefined" (createAnnotationLayer_class "P1" "C1")
    (mk_select "X" false) (Failed NoResponse) (mk_world (Some ["L1"]) [])
  = (mk_select "X" true,
     mk_world (Some ["L1"]) [Post "P1" (mk_body "C1" false (Some "X") "from.X")],
     Some TypeError).
Proof.
  assert ("X" ≠ "") as HX by discriminate.
  exact (proj1 (create_from_extractor_unreadable_failure "undefined" "P1" "C1" "X"
                  false (mk_world (Some ["L1"]) []) HX)).
Defined.

(** X11: when the creation from the extractor X succeeds, the request carried
    the name "from.X" and the source X, the new layer is at the end of the
    cached list, no alert is shown, and the select is enabled again with
    its value reset. *)
Theorem create_from_extractor_success {val : Type} (undefined : val)
    (paperId owner X : string) (was_disabled : bool)
    (newAnnotation result_id : string) (w : world (val := val)) :
  X ≠ "" →
  let request := Post paperId (mk_body owner false (Some X) ("from." +:+ X)) in
  let cache' := Some (default [] (cache w) ++ [newAnnotation]) in
  select_onChange undefined (createAnnotationLayer_class paperId owner)
    (mk_select X was_disabled) (Created newAnnotation result_id) w
  = (mk_select "" false,
     mk_world cache' (trace w ++ [request; OnNewLayer newAnnotation]), None) ∧
  select_onChange undefined (createAnnotationLayer_model paperId owner)
    (mk_select X was_disabled) (Created newAnnotation result_id) w
  = (mk_select "" false,
     mk_world cache'
       (trace w ++ [ConsoleLog paperId; request; CreateLayer.OnDisplayChange result_id true]),
     None).
Proof.
  intros HX request cache'. unfold select_onChange. simpl.
  rewrite bool_decide_eq_true_2 by done.
  unfold createAnnotationLayer_class, createAnnotationLayer_model, emit, updater.
  simpl. by rewrite <-!app_assoc.
Qed.

Lemma create_from_extractor_success_witness :
  select_onChange "undefined" (createAnnotationLayer_class "P1" "C1")
    (mk_select "X" false) (Created "L2" "L2") (mk_world (Some ["L1"]) [])
  = (mk_select "" false,
     mk_world (Some ["L1"; "L2"])
       [Post "P1" (mk_body "C1" false (Some "X") "from.X"); OnNewLayer "L2"],
     None).
Proof.
  assert ("X" ≠ "") as HX by discriminate.
  exact (proj1 (create_from_extractor_success "undefined" "P1" "C1" "X" false
                  "L2" "L2" (mk_world (Some ["L1"]) []) HX)).
Defined.

Section cache_facts.
Context {val : Type} (undefined : val).
Implicit Types (w : world (val := val)) (o : outcome val).

Lemma createAnnotationLayer_class_appends paperId owner :
  appends_only (val := val) (createAnnotationLayer_class paperId owner).
Proof.
  intros name from [new rid|e] w; unfold createAnnotationLayer_class, emit; simpl;
    (split; [|done]); rewrite <-?app_assoc; by apply prefix_app_r.
Qed.

Lemma createAnnotationLayer_model_appends paperId owner :
  appends_only (val := val) (createAnnotationLayer_model paperId owner).
Proof.
  intros name from [new rid|e] w; unfold createAnnotationLayer_model, emit; simpl;
    (split; [|done]); rewrite <-?app_assoc; by apply prefix_app_r.
Qed.

Lemma on_rejected_keeps r w :
  cache (on_rejected undefined r w).1 = cache w ∧
  trace w `prefix_of` trace (on_rejected undefined r w).1.
Proof.
  destruct r as [[|[json|]]| |]; simpl; split; try done.
  by apply prefix_app_r.
Qed.
End cache_facts.

(** X12: no handler of the menu drops or reorders cached layers or past
    effects.  After a click on the button or a change of the select, in
    either revision and however the request ends, the cached list starts
    with the list of before and is at most one layer longer, and a
    rejected request leaves the cache as it was. *)
Theorem handlers_only_append {val : Type} (undefined : val)
    (paperId owner : string)
    (create : string → option string → outcome val → world → promise)
    (target : select) (o : outcome val) (w : world (val := val)) :
  create = createAnnotationLayer_class paperId owner ∨
  create = createAnnotationLayer_model paperId owner →
  let after_click := (button_onClick create o w).1 in
  let after_change := (select_onChange undefined create target o w).1.2 in
  ∀ w', w' = after_click ∨ w' = after_change →
    default [] (cache w) `prefix_of` default [] (cache w') ∧
    length (default [] (cache w')) ≤ S (length (default [] (cache w))) ∧
    trace w `prefix_of` trace w' ∧
    (∀ e, o = Failed e → cache w' = cache w).
Proof.
  intros Hcreate after_click after_change w' Hw'.
  assert (appends_only create) as Happ.
  { destruct Hcreate as [-> | ->];
      [apply createAnnotationLayer_class_appends
      |apply createAnnotationLayer_model_appends]. }
  assert (∀ name from,
            let w1 := (create name from o w).1 in
            default [] (cache w) `prefix_of` default [] (cache w1) ∧
            length (default [] (cache w1)) ≤ S (length (default [] (cache w))) ∧
            trace w `prefix_of` trace w1 ∧
            (∀ e, o = Failed e → cache w1 = cache w)) as Hcall.
  { intros name from w1. destruct (Happ name from o w) as [Ht Ho]. subst w1.
    destruct o as [new rid|e].
    - destruct Ho as [-> _]. simpl. split_and!; [by apply prefix_app_r| |done|done].
      rewrite length_app. simpl. lia.
    - destruct Ho as [-> _]. split_and!; [done|lia|done|done]. }
  destruct Hw' as [-> | ->].
  - apply Hcall.
  - subst after_change. unfold select_onChange.
    case_bool_decide as Hv; simpl; [|split_and!; [done|lia|done|done]].
    specialize (Hcall ("from." +:+ value target) (Some (value target))).
    destruct (create ("from." +:+ value target) (Some (value target)) o w)
      as [w1 [r|]] eqn:Hc; simpl in *.
    + pose proof (on_rejected_keeps undefined r w1) as [Hcache Htrace].
      destruct (on_rejected undefined r w1) as [w2 [r'|]]; simpl in *;
        rewrite Hcache; destruct Hcall as (? & ? & ? & ?);
        (split_and!; [done|done|by etrans|done]).
    + done.
Qed.

Lemma handlers_only_append_witness :
  default [] (cache (mk_world (val := string) (Some ["L1"]) []))
  `prefix_of`
  default []
    (cache (button_onClick (createAnnotationLayer_class "P1" "C1")
              (Created "L2" "L2") (mk_world (val := string) (Some ["L1"]) [])).1).
Proof.
  apply (handlers_only_append "undefined" "P1" "C1"
           (createAnnotationLayer_class "P1" "C1") (mk_select "X" false)
           (Created "L2" "L2") (mk_world (Some ["L1"]) [])
           (or_introl eq_refl) _ (or_introl eq_refl)).
Defined.

(** X13: clicks on the button compose: after a run of requests the cached
    list is the list of before followed by the layers of the requests that
    succeeded, in the order in which they ended. *)
Theorem clicks_append_in_order {val : Type} (paperId owner : string)
    (os : list (outcome val)) (w : world (val := val)) :
  default [] (cache (clicks (createAnnotationLayer_class paperId owner) os w))
  = default [] (cache w) ++ created os ∧
  default [] (cache (clicks (createAnnotationLayer_model paperId owner) os w))
  = default [] (cache w) ++ created os.
Proof.
  unfold clicks, button_onClick. revert w.
  induction os as [|o os IH]; intros w; simpl.
  - by rewrite app_nil_r.
  - destruct (IH (createAnnotationLayer_class paperId owner "Untitled" None o w).1)
      as [-> _].
    destruct (IH (createAnnotationLayer_model paperId owner "Untitled" None o w).1)
      as [_ ->].
    destruct o as [new rid|e]; simpl; [|done].
    unfold updater. by rewrite <-!app_assoc.
Qed.

(** ** The menu and its entries *)

(** X14: the buttons of the labels are rendered exactly when one of the
    entries is the selected one; an entry is highlighted as new exactly when
    it is the layer last announced by [onNewLayer]; and when the layers have
    pairwise distinct ids, at most one entry is selected and at most one is
    new. *)
Theorem menu_entries_selected {layer : Type} (layer_id : layer → string)
    (p : AnnotationMenu.props) (newLayer : option string) :
  (AnnotationMenu.select_tag_rendered layer_id p = true ↔
   ∃ e, e ∈ AnnotationMenu.entries layer_id p newLayer ∧
        AnnotationMenu.selected e = true) ∧
  (∀ id e, e ∈ AnnotationMenu.entries layer_id p (AnnotationMenu.onNewLayer id).2 →
           (AnnotationMenu.new e = true ↔ AnnotationMenu.entry_layer e = id)) ∧
  (NoDup (layer_id <$> AnnotationMenu.annotations p) →
   length (filter (λ e, AnnotationMenu.selected e = true)
             (AnnotationMenu.entries layer_id p newLayer)) ≤ 1 ∧
   length (filter (λ e, AnnotationMenu.new e = true)
             (AnnotationMenu.entries layer_id p newLayer)) ≤ 1).
Proof.
  assert (∀ (o : option string) (flag : AnnotationMenu.entry → bool)
            (mk : layer → AnnotationMenu.entry) (ls : list layer),
            (∀ l, flag (mk l) = bool_decide (o = Some (layer_id l))) →
            NoDup (layer_id <$> ls) →
            length (filter (λ e, flag e = true) (mk <$> ls)) ≤ 1) as Hone.
  { intros o flag mk ls Hflag. induction ls as [|l ls IH]; csimpl; [by intros _; simpl; lia|].
    intros [Hl Hnd]%NoDup_cons.
    destruct (decide (o = Some (layer_id l))) as [->|Hne].
    - rewrite filter_cons_True by (rewrite Hflag; by apply bool_decide_eq_true).
      destruct (filter _ (mk <$> ls)) as [|e es] eqn:Hf; [simpl; lia|].
      assert (e ∈ filter (λ e, flag e = true) (mk <$> ls)) as Hin
        by (rewrite Hf; left).
      apply list_elem_of_filter in Hin as [He (l' & -> & Hl')%list_elem_of_fmap].
      rewrite Hflag in He. apply bool_decide_eq_true in He as [= Heq].
      destruct Hl. rewrite Heq. by apply list_elem_of_fmap_2.
    - rewrite filter_cons_False by (rewrite Hflag; by rewrite bool_decide_eq_true).
      by apply IH. }
  unfold AnnotationMenu.select_tag_rendered, AnnotationMenu.selectedLayer_included,
    AnnotationMenu.entries.
  split_and!.
  - destruct (AnnotationMenu.selectedLayer p) as [s|]; split.
    + intros (l & -> & Hl)%bool_decide_eq_true%list_elem_of_fmap.
      eexists. split; [by apply list_elem_of_fmap_2|]. simpl.
      by apply bool_decide_eq_true.
    + intros (e & (l & -> & Hl)%list_elem_of_fmap & Hsel). simpl in Hsel.
      apply bool_decide_eq_true in Hsel as [= ->].
      apply bool_decide_eq_true. by apply list_elem_of_fmap_2.
    + done.
    + by intros (e & (l & -> & Hl)%list_elem_of_fmap & Hsel).
  - intros id e (l & -> & Hl)%list_elem_of_fmap. simpl.
    rewrite bool_decide_eq_true. split; [by intros [= ->]|by intros ->].
  - intros Hnd. split.
    + by apply (Hone (AnnotationMenu.selectedLayer p)).
    + by apply (Hone newLayer).
Qed.

Lemma menu_entries_selected_witness :
  length (filter (λ e, AnnotationMenu.selected e = true)
            (AnnotationMenu.entries LayerResource.id
               (AnnotationMenu.mk_props "P1"
                  [LayerResource.mk "L1" "P1" "k" "a" false;
                   LayerResource.mk "L2" "P1" "k" "b" false]
                  ∅ (Some "L2"))
               None)) ≤ 1.
Proof.
  apply (proj2 (proj2 (menu_entries_selected LayerResource.id
                         (AnnotationMenu.mk_props "P1"
                            [LayerResource.mk "L1" "P1" "k" "a" false;
                             LayerResource.mk "L2" "P1" "k" "b" false]
                            ∅ (Some "L2"))
                         None))).
  by_evaluation.
Defined.



(** ** Optimistic updates compose *)

(** X16: a later patch laid over an optimistic record gives the optimistic
    record of the two patches merged, the later one first; and updating
    again with the record just obtained changes nothing. *)
Theorem optimisticUpdate_compose {value : Type} (undefined : value)
    (params body later : gmap string value) :
  later ∪ AnnotationResource.optimisticUpdate undefined params body
  = AnnotationResource.optimisticUpdate undefined params (later ∪ body) ∧
  AnnotationResource.optimisticUpdate undefined params
    (AnnotationResource.optimisticUpdate undefined params body)
  = AnnotationResource.optimisticUpdate undefined params body.
Proof.
  unfold AnnotationResource.optimisticUpdate. split.
  - by rewrite (assoc_L (∪)).
  - rewrite <-(assoc_L (∪)). f_equal; apply (idemp_L (∪)).
Qed.

(** ** Hotkeys of labels without capitals *)

Lemma lower_of_toUpperCase (c : ascii) :
  is_upper c = false → lower_of (Hotkeys.toUpperCase c) = c.
Proof. destruct c as [[] [] [] [] [] [] [] []]; by vm_compute. Qed.

(** X17: when the labels are made of ASCII characters and none of them is an
    upper-case letter, the hotkeys are pairwise distinct, so that a key
    selects one label only; with capitals, the shortcuts a and A of two
    labels are bound to the same key. *)
Theorem hotkeys_distinct (labels : list string) :
  (Forall (λ label, Forall (λ c, is_seven_bit c = true ∧ is_upper c = false)
                      (chars label)) labels →
   NoDup (Hotkeys.useHotkeys_class (shortcuts labels)).*1 ∧
   ∀ selectedLayer,
     NoDup (Hotkeys.useHotkeys_model selectedLayer (shortcuts labels)).*1) ∧
  (Hotkeys.useHotkeys_class (shortcuts ["a"; "A"])).*1 = ["A"; "A"].
Proof.
  split; [|reflexivity]. intros Hlabels.
  assert (NoDup ((λ c, String (Hotkeys.toUpperCase c) "") <$> keys (shortcuts labels)))
    as Hnd.
  { apply NoDup_fmap_2_strong; [|apply shortcuts_keys_NoDup].
    assert (∀ c, c ∈ keys (shortcuts labels) → is_upper c = false) as Hlow.
    { intros c ([c' label] & -> & [Hl Hc]%shortcut_binding_sound)%list_elem_of_fmap.
      simpl. apply (proj1 (Forall_forall _ _) Hlabels) in Hl.
      by apply (proj1 (Forall_forall _ _) Hl). }
    intros c1 c2 H1%Hlow H2%Hlow [= Heq].
    by rewrite <-(lower_of_toUpperCase c1), <-(lower_of_toUpperCase c2), Heq. }
  unfold Hotkeys.useHotkeys_class, Hotkeys.useHotkeys_model.
  split; [|intros selectedLayer]; by rewrite <-list_fmap_compose.
Qed.

Lemma hotkeys_distinct_witness :
  NoDup (Hotkeys.useHotkeys_class (shortcuts ["cat"; "car"; "dog"])).*1.
Proof.
  apply (proj1 (hotkeys_distinct ["cat"; "car"; "dog"])).
  by_evaluation.
Defined.
